(** * Live Sentiment Dashboard (app.py): text cleanup, two-bucket
      classification and the session's record log.

    The development embeds the pure core of [app.py]:
    - [preprocess_text] (lines 21-28), with its four [re.sub] calls run by a
      small backtracking matcher for the patterns the program uses;
    - [analyze_sentiment] (lines 33-48), with the TextBlob scorer taken as a
      parameter that either raises or returns a polarity;
    - the session state (lines 77-84), the "Clear Data" action (102-104), the
      polling cycle (118-142), the three metrics (146-148) and the rolling
      trend line (166), whose binary64 arithmetic inside pandas is a
      parameter;
    - the tweet fetcher (53-72), the monitoring button (97-100), the
      distribution charts (198-205), the live feed (221-228) and the colour
      of the raw-data table (249-251).

    A Python [str] is a sequence of Unicode code points: it is carried as a
    list of code points, so that [\s] and [str.strip] see the whole Unicode
    white-space set and not only the ASCII part. *)

From Stdlib Require Import Ascii String.
From Stdlib Require Import List NArith ZArith QArith Bool Lia Permutation.
From Equations Require Import Equations.
Import ListNotations.

Close Scope Q_scope.
Local Open Scope nat_scope.

(** ** Python strings *)

Module Py.

Definition str := list N.

Definition ord (a : ascii) : N := N_of_ascii a.

(** A literal of the source, as code points (the literals of [app.py] that
    the model needs are ASCII). *)
Definition lit (s : string) : str := List.map ord (list_ascii_of_string s).

Definition str_eqb (a b : str) : bool :=
  if list_eq_dec N.eq_dec a b then true else false.

Definition between (lo hi c : N) : bool := ((lo <=? c) && (c <=? hi))%N.

Definition is_upper (c : N) : bool := between 65 90 c.    (* A-Z *)
Definition is_lower (c : N) : bool := between 97 122 c.   (* a-z *)
Definition is_digit (c : N) : bool := between 48 57 c.    (* 0-9 *)
Definition is_letter (c : N) : bool := is_upper c || is_lower c.

(** [str.isspace] on one code point; the same set is what [\s] matches in a
    [str] pattern and what [str.strip()] removes. *)
Definition isspace (c : N) : bool :=
  between 9 13 c || between 28 32 c
  || (c =? 133)%N || (c =? 160)%N || (c =? 5760)%N
  || between 8192 8202 c || (c =? 8232)%N || (c =? 8233)%N
  || (c =? 8239)%N || (c =? 8287)%N || (c =? 12288)%N.

(** [str.lower] on one code point.  In [preprocess_text] it only ever sees
    what the fourth substitution leaves, ASCII letters and white space: the
    upper-case ASCII letters move down by 32 and white space has no case.
    Other code points never reach it and are left alone here. *)
Definition lower_char (c : N) : N := if is_upper c then (c + 32)%N else c.

Definition lower (s : str) : str := List.map lower_char s.

Fixpoint lstrip (s : str) : str :=
  match s with
  | c :: s' => if isspace c then lstrip s' else s
  | [] => []
  end.

Definition rstrip (s : str) : str := rev (lstrip (rev s)).

Definition strip (s : str) : str := rstrip (lstrip s).

End Py.

Import Py.

(** ** The [re] module, for the patterns of [preprocess_text] *)

Module Re.

(** Every pattern of the program is a sequence of single-character items,
    each a literal or a bracket set, bare or followed by [?] or [+]. *)
Inductive quant := One | Opt | Plus.

Record item := Item { accepts : N -> bool; quantifier : quant }.

Definition pattern := list item.

Definition chr (a : ascii) : item := Item (N.eqb (ord a)) One.
Definition chr_opt (a : ascii) : item := Item (N.eqb (ord a)) Opt.

(** One character of the class, then the continuation [k]; the result counts
    the characters consumed. *)
Definition step (p : N -> bool) (k : str -> option nat) (s : str)
  : option nat :=
  match s with
  | c :: s' => if p c then option_map S (k s') else None
  | [] => None
  end.

Definition or_else (a b : option nat) : option nat :=
  match a with Some n => Some n | None => b end.

(** As many characters of the class as possible, then the continuation; one
    character is given back at a time while the continuation fails. *)
Fixpoint star (p : N -> bool) (k : str -> option nat) (s : str)
  : option nat :=
  or_else
    match s with
    | c :: s' => if p c then option_map S (star p k s') else None
    | [] => None
    end
    (k s).

(** [match_at re s]: the match of [re] anchored at the start of [s], as the
    backtracking engine finds it (greedy [?] and [+], first success wins);
    [Some n] is a match of [n] characters. *)
Fixpoint match_at (re : pattern) (s : str) {struct re} : option nat :=
  match re with
  | [] => Some 0
  | Item p One :: re' => step p (match_at re') s
  | Item p Opt :: re' => or_else (step p (match_at re') s) (match_at re' s)
  | Item p Plus :: re' => step p (star p (match_at re')) s
  end.

(** [re.sub(re, '', s)]: scan left to right; at each position not inside the
    previous match try the pattern; a match is dropped and the scan resumes
    after it, otherwise the character is kept.  [skip] is the number of
    characters of the current match still to drop. *)
Fixpoint sub_from (re : pattern) (skip : nat) (s : str) : str :=
  match s with
  | [] => []
  | c :: s' =>
      match skip with
      | S k => sub_from re k s'
      | O =>
          match match_at re s with
          | Some (S n) => sub_from re n s'
          | _ => c :: sub_from re 0 s'
          end
      end
  end.

Definition sub_empty (re : pattern) (s : str) : str := sub_from re 0 s.

End Re.

Import Re.

(** ** Text preprocessing function (app.py, 21-28) *)

(** [[A-Za-z0-9_]] *)
Definition word_char (c : N) : bool :=
  is_upper c || is_lower c || is_digit c || (c =? ord "_")%N.

(** [[A-Za-z0-9./]] *)
Definition url_char (c : N) : bool :=
  is_upper c || is_lower c || is_digit c || (c =? ord ".")%N || (c =? ord "/")%N.

(** [[^A-Za-z\s]] *)
Definition special_char (c : N) : bool :=
  negb (is_upper c || is_lower c || isspace c).

(** [r'@[A-Za-z0-9_]+'] *)
Definition re_mention : pattern := [chr "@"; Item word_char Plus].

(** [r'#[A-Za-z0-9_]+'] *)
Definition re_hashtag : pattern := [chr "#"; Item word_char Plus].

(** [r'https?://[A-Za-z0-9./]+'] *)
Definition re_url : pattern :=
  [chr "h"; chr "t"; chr "t"; chr "p"; chr_opt "s"; chr ":"; chr "/"; chr "/";
   Item url_char Plus].

(** [r'[^A-Za-z\s]'] *)
Definition re_special : pattern := [Item special_char One].

Definition preprocess_text (text : str) : str :=
  let text := sub_empty re_mention text in
  let text := sub_empty re_hashtag text in
  let text := sub_empty re_url text in
  let text := sub_empty re_special text in
  let text := strip (lower text) in
  text.

(** ** Sentiment analyzer and classifier (app.py, 33-48) *)

(** [a > b] on polarities.  A polarity is a Python float; it is carried as the
    rational it denotes (TextBlob's polarity is a finite average in
    [[-1, 1]]), and rounding is not part of the model. *)
Definition Qgt_bool (a b : Q) : bool := negb (Qle_bool a b).

Definition Positive : str := lit "Positive".
Definition Negative : str := lit "Negative".
Definition emoji_smile : str := [128522%N].   (* U+1F60A *)
Definition emoji_angry : str := [128544%N].   (* U+1F620 *)

Section Classifier.

(** What the scorer raises when it cannot score, whatever that is: the
    program defines no exception of its own and catches none. *)
Variable exn : Type.

(** [TextBlob(cleaned_text).sentiment.polarity]: raises or returns a float. *)
Variable textblob_polarity : str -> exn + Q.

Definition analyze_sentiment (text : str) : exn + (Q * str * str) :=
  let cleaned_text := preprocess_text text in
  match textblob_polarity cleaned_text with
  | inl e => inl e
  | inr polarity =>
      if Qgt_bool polarity 0
      then inr (polarity, Positive, emoji_smile)
      else inr (polarity, Negative, emoji_angry)
  end.

End Classifier.

Arguments analyze_sentiment {exn} textblob_polarity text.

(** ** Simulated live tweet fetcher (app.py, 53-72) *)

Definition sample_texts (keyword : str) : list str :=
  [ lit "I love my new " ++ keyword ++ lit ", it's absolutely amazing! Best purchase ever!";
    keyword ++ lit " is the worst product I've ever used. Complete waste of money.";
    keyword ++ lit " has completely transformed my daily routine for the better!";
    lit "I'm so disappointed with " ++ keyword ++ lit ". It broke after just one week.";
    lit "Highly recommend " ++ keyword ++ lit " to everyone! Excellent quality and service.";
    lit "Avoid " ++ keyword ++ lit " at all costs. Terrible customer support experience.";
    lit "Absolutely in love with my " ++ keyword ++ lit "! Worth every penny!";
    keyword ++ lit " stopped working after 2 days. Very frustrated!";
    keyword ++ lit " has exceeded all my expectations. Fantastic product!";
    lit "Regret buying " ++ keyword ++ lit ". Poor build quality and performance.";
    keyword ++ lit " is a game-changer! Can't imagine life without it now.";
    lit "Never buying " ++ keyword ++ lit " again. Complete garbage.";
    keyword ++ lit " customer service is outstanding! They went above and beyond.";
    keyword ++ lit " is a scam. Don't fall for their marketing.";
    lit "Best decision I ever made was purchasing " ++ keyword ++ lit "!" ].

(** [sample_texts[:n]], for the [n >= 0] the slider gives. *)
Definition get_fake_tweets (keyword : str) (n : nat) : list str :=
  firstn n (sample_texts keyword).

(** ** Session state (app.py, 77-84) *)

(** One row of [st.session_state.data]; [time] is a [datetime], carried as
    microseconds since the epoch. *)
Record row := Row {
  time : Z;
  text : str;
  sentiment_score : Q;
  sentiment : str;
  sentiment_emoji : str
}.

Record session_state := Session {
  data : list row;
  last_update : Z;
  running : bool;
  keyword : str
}.

(** The four [if ... not in st.session_state] initialisations of a fresh
    session; [now] is the reading of [datetime.now()]. *)
Definition init_session (now : Z) : session_state :=
  {| data := []; last_update := now; running := false;
     keyword := lit "iPhone" |}.

(** ** Sidebar actions (app.py, 97-104) *)

(** "Start Monitoring" / "Pause Monitoring"; [keyword_input] is the text
    field's content. *)
Definition toggle_monitoring (keyword_input : str) (st : session_state)
  : session_state :=
  {| data := data st; last_update := last_update st;
     running := negb (running st); keyword := keyword_input |}.

(** "Clear Data": [st.session_state.data] is replaced by an empty frame. *)
Definition clear_data (st : session_state) : session_state :=
  {| data := []; last_update := last_update st;
     running := running st; keyword := keyword st |}.

(** ** Polling cycle (app.py, 118-142) *)

Section Polling.

Variable exn : Type.
Variable textblob_polarity : str -> exn + Q.

(** The [for t in tweets] loop: the [k]-th reading of the clock stamps the
    row; an exception of the scorer leaves the loop. *)
Fixpoint analyze_all (clock : nat -> Z) (k : nat) (tweets : list str)
  : exn + list row :=
  match tweets with
  | [] => inr []
  | t :: rest =>
      match analyze_sentiment textblob_polarity t with
      | inl e => inl e
      | inr (score, sentiment, emoji) =>
          match analyze_all clock (S k) rest with
          | inl e => inl e
          | inr rows => inr (Row (clock k) t score sentiment emoji :: rows)
          end
      end
  end.

(** [pd.concat([data, df_new], ignore_index=True)] *)
Definition concat (d new : list row) : list row := d ++ new.

(** One run of the main block.  [clock 0] is the reading compared with
    [last_update], [clock 1 .. clock n] stamp the rows and [clock (n+1)] is
    stored as the new [last_update]; [refresh_rate] is in seconds. *)
Definition poll (clock : nat -> Z) (keyword_input : str)
    (refresh_rate : Z) (tweets_per_refresh : nat) (st : session_state)
  : exn + session_state :=
  if running st then
    if (refresh_rate * 1000000 <=? clock 0%nat - last_update st)%Z then
      let tweets := get_fake_tweets keyword_input tweets_per_refresh in
      match analyze_all clock 1 tweets with
      | inl e => inl e
      | inr new_data =>
          inr {| data := concat (data st) new_data;
                 last_update := clock (S (length tweets));
                 running := running st; keyword := keyword st |}
      end
    else inr st
  else inr st.

End Polling.

Arguments analyze_all {exn} textblob_polarity clock k tweets.
Arguments poll {exn} textblob_polarity clock keyword_input refresh_rate
  tweets_per_refresh st.

(** ** Metrics (app.py, 145-148) *)

(** [len(data[data["sentiment"] == label])] *)
Definition count_label (label : str) (d : list row) : nat :=
  length (filter (fun r => str_eqb (sentiment r) label) d).

(** [(positive, negative, total)] *)
Definition counts (d : list row) : nat * nat * nat :=
  (count_label Positive d, count_label Negative d, length d).

(** The metrics are only computed and shown under [if not data.empty]. *)
Definition metrics (d : list row) : option (nat * nat * nat) :=
  match d with
  | [] => None
  | _ => Some (counts d)
  end.

(** ** Trend line (app.py, 161-166) *)

(** The window that ends at position [i]: [xs[max(0, i+1-window) : i+1]]. *)
Definition window_at (window i : nat) (xs : list Q) : list Q :=
  firstn (i + 1 - (i + 1 - window)) (skipn (i + 1 - window) xs).

Section Rolling.

(** The mean itself is computed inside pandas, in binary64, from running sums
    carried along the series; that arithmetic is no part of this program.
    [kernel window prefix] stands for the value it gives at the last position
    of [prefix], the series up to and including that position. *)
Variable kernel : nat -> list Q -> Q.

(** [Series.rolling(window, min_periods).mean()]: one value per position,
    [None] (NaN) while the window holds fewer than [min_periods] values. *)
Definition rolling_mean (window min_periods : nat) (xs : list Q)
  : list (option Q) :=
  List.map
    (fun i =>
       if min_periods <=? length (window_at window i xs)
       then Some (kernel window (firstn (i + 1) xs))
       else None)
    (seq 0 (length xs)).

(** [chart_data["sentiment_score"].rolling(window=3, min_periods=1).mean()] *)
Definition rolling_avg (d : list row) : list (option Q) :=
  rolling_mean 3 1 (List.map sentiment_score d).

End Rolling.

(** ** The store of the specification, built one record at a time *)

(** [appended k m d]: the log [d] is the empty log after [k] records labelled
    Positive and [m] records labelled Negative were appended, in any order. *)
Inductive appended : nat -> nat -> list row -> Prop :=
| appended_nil : appended 0 0 []
| appended_pos k m d r :
    appended k m d -> sentiment r = Positive ->
    appended (S k) m (concat d [r])
| appended_neg k m d r :
    appended k m d -> sentiment r = Negative ->
    appended k (S m) (concat d [r]).

(** ** The normalizer as the specification words it *)

Module Spec.

Definition alnum_or_underscore (c : N) : bool :=
  is_letter c || is_digit c || (c =? ord "_")%N.

Definition alnum_dot_slash (c : N) : bool :=
  is_letter c || is_digit c || (c =? ord ".")%N || (c =? ord "/")%N.

Definition letter_or_space (c : N) : bool := is_letter c || isspace c.

(** Length of the longest run of [body] characters at the head of [s]. *)
Fixpoint run (body : N -> bool) (s : str) : nat :=
  match s with
  | c :: s' => if body c then S (run body s') else 0
  | [] => 0
  end.

Fixpoint starts_with (prefix s : str) : bool :=
  match prefix, s with
  | [], _ => true
  | p :: prefix', c :: s' => (p =? c)%N && starts_with prefix' s'
  | _ :: _, [] => false
  end.

(** "[prefix] followed by one or more [body]": the length of the token at
    the head of [s], or 0 when no token starts there. *)
Definition token (prefix : str) (body : N -> bool) (s : str) : nat :=
  if starts_with prefix s then
    match run body (skipn (length prefix) s) with
    | 0 => 0
    | S n => length prefix + S n
    end
  else 0.

Definition mention : str -> nat := token (lit "@") alnum_or_underscore.

Definition hashtag : str -> nat := token (lit "#") alnum_or_underscore.

(** "http or https followed by :// and alphanumerics, dots, slashes" *)
Definition url (s : str) : nat :=
  match token (lit "http://") alnum_dot_slash s with
  | 0 => token (lit "https://") alnum_dot_slash s
  | n => n
  end.

(** Remove every token, left to right. *)
Equations? remove_tokens (tok : str -> nat) (s : str) : str
  by wf (length s) lt :=
  remove_tokens tok [] := [];
  remove_tokens tok (c :: s') with tok (c :: s') := {
    | 0 => c :: remove_tokens tok s'
    | S n => remove_tokens tok (skipn n s') }.
Proof.
  all: simpl; try rewrite length_skipn; lia.
Qed.

Definition remove_chars (drop : N -> bool) (s : str) : str :=
  filter (fun c => negb (drop c)) s.

Definition lower_case (s : str) : str :=
  List.map (fun c => if is_upper c then (c + 32)%N else c) s.

Fixpoint trim_leading (s : str) : str :=
  match s with
  | c :: s' => if isspace c then trim_leading s' else s
  | [] => []
  end.

Definition trim_trailing (s : str) : str :=
  fold_right
    (fun c acc =>
       match acc with
       | [] => if isspace c then [] else [c]
       | _ :: _ => c :: acc
       end)
    [] s.

(** Steps (1) to (6), in that order. *)
Definition normalize (s : str) : str :=
  let s1 := remove_tokens mention s in
  let s2 := remove_tokens hashtag s1 in
  let s3 := remove_tokens url s2 in
  let s4 := remove_chars (fun c => negb (letter_or_space c)) s3 in
  let s5 := lower_case s4 in
  trim_trailing (trim_leading s5).

End Spec.

(** ** Vocabulary of the statements *)

Definition leading_space (s : str) : bool :=
  match s with
  | c :: _ => isspace c
  | [] => false
  end.

Definition trailing_space (s : str) : bool := leading_space (rev s).

(** A lower-case ASCII letter or a white-space character. *)
Definition lower_or_space (c : N) : bool := is_lower c || isspace c.

(** An item that must consume a character and refuses every character that
    satisfies [ok]. *)
Definition misses (ok : N -> bool) (it : item) : Prop :=
  quantifier it <> Opt /\ forall c, ok c = true -> accepts it c = false.

Definition all_ok (ok : N -> bool) (s : str) : Prop :=
  Forall (fun c => ok c = true) s.

(** A token length as a match result: no token, no match. *)
Definition found (n : nat) : option nat :=
  match n with
  | 0 => None
  | S _ => Some n
  end.

(** The pattern of a literal string. *)
Definition lits (prefix : str) : pattern :=
  List.map (fun c => Item (N.eqb c) One) prefix.

(** A scorer to run the classifier on: a two-word lexicon, 0 for any other
    text. *)
Definition lexicon_scorer (s : str) : unit + Q :=
  if str_eqb s (lit "i love it") then inr (1 # 2)%Q
  else if str_eqb s (lit "terrible") then inr (- (1))%Q
  else inr 0%Q.

(** Exceptions by the name of their class, for scorers that raise Python
    exceptions.  [ScoringUnavailable] is the error the specification names;
    no line of [app.py] defines or raises it.  [MissingCorpusError] is an
    exception of the scoring library itself. *)
Definition ScoringUnavailable : str := lit "ScoringUnavailable".
Definition MissingCorpusError : str := lit "MissingCorpusError".

(** A scorer that is unavailable: it raises its own exception on every
    text. *)
Definition unavailable_scorer (s : str) : str + Q := inl MissingCorpusError.

(** A scorer that cannot score. *)
Definition broken_scorer (s : str) : unit + Q := inl tt.

Definition row_pos (t : Z) : row :=
  Row t (lit "I love it") (1 # 2)%Q Positive emoji_smile.

Definition row_neg (t : Z) : row :=
  Row t (lit "terrible") (- (1))%Q Negative emoji_angry.

(** Two Positive records around one Negative record. *)
Definition log_2_1 : list row :=
  concat (concat (concat [] [row_pos 1]) [row_neg 2]) [row_pos 3].

(** ** Session initialisation, key by key (app.py, 77-84) *)

(** [st.session_state] as the script finds it when a run starts: each of the
    four keys is there or not. *)
Record session_keys := Keys {
  k_data : option (list row);
  k_last_update : option Z;
  k_running : option bool;
  k_keyword : option str
}.

Definition no_keys : session_keys := Keys None None None None.

Definition keys_of (st : session_state) : session_keys :=
  Keys (Some (data st)) (Some (last_update st)) (Some (running st))
       (Some (keyword st)).

(** The four [if "..." not in st.session_state] blocks; [now] is read only
    for a missing [last_update]. *)
Definition initialize (now : Z) (s : session_keys) : session_state :=
  {| data := match k_data s with Some d => d | None => [] end;
     last_update := match k_last_update s with Some t => t | None => now end;
     running := match k_running s with Some b => b | None => false end;
     keyword := match k_keyword s with Some k => k | None => lit "iPhone" end |}.

(** ** Script runs *)

Section Runs.

Variable exn : Type.
Variable textblob_polarity : str -> exn + Q.

(** What a run of the script can do to the session: a click on the
    monitoring button, a click on "Clear Data", or the main block with the
    readings of the clock and of the sidebar widgets. *)
Inductive event :=
| Toggle (keyword_input : str)
| Clear
| Poll (clock : nat -> Z) (keyword_input : str) (refresh_rate : Z)
       (tweets_per_refresh : nat).

Definition run (ev : event) (st : session_state) : exn + session_state :=
  match ev with
  | Toggle keyword_input => inr (toggle_monitoring keyword_input st)
  | Clear => inr (clear_data st)
  | Poll clock keyword_input refresh_rate tweets_per_refresh =>
      poll textblob_polarity clock keyword_input refresh_rate
           tweets_per_refresh st
  end.

(** The states a session goes through, from a fresh one. *)
Inductive reachable : session_state -> Prop :=
| reachable_init now : reachable (init_session now)
| reachable_run ev st st' :
    reachable st -> run ev st = inr st' -> reachable st'.

End Runs.

Arguments run {exn} textblob_polarity ev st.
Arguments reachable {exn} textblob_polarity st.

(** ** Distribution charts (app.py, 198-205) *)







(** ** Live feed (app.py, 221-228) *)

(** [DataFrame.tail(n)] *)
Definition tail (n : nat) (d : list row) : list row :=
  skipn (length d - n) d.

Fixpoint insert_by_time (r : row) (l : list row) : list row :=
  match l with
  | [] => [r]
  | x :: l' =>
      if (time x <=? time r)%Z then r :: l else x :: insert_by_time r l'
  end.

(** [sort_values("time", ascending=False)].  Rows with equal times are left
    in log order here; the order pandas gives them is not relied on below. *)
Definition sort_by_time_desc (d : list row) : list row :=
  fold_right insert_by_time [] d.

(** The rows the feed shows, top to bottom. *)
Definition live_feed (d : list row) : list row :=
  sort_by_time_desc (tail 10 d).

(** [(color, bg_color)] of a feed entry. *)
Definition feed_colours (r : row) : str * str :=
  if str_eqb (sentiment r) Positive
  then (lit "green", lit "#e8f5e9")
  else (lit "red", lit "#ffebee").

(** ** Raw data table (app.py, 249-251) *)

Definition color_sentiment (val : str) : str :=
  let color := if str_eqb val Positive then lit "green" else lit "red" in
  lit "color: " ++ color ++ lit "; font-weight: bold".

(** ** More vocabulary *)

(** [subseq a b]: [a] is [b] with some characters deleted. *)
Inductive subseq : str -> str -> Prop :=
| subseq_nil : subseq [] []
| subseq_drop c a b : subseq a b -> subseq a (c :: b)
| subseq_keep c a b : subseq a b -> subseq (c :: a) (c :: b).

(** A row as [analyze_sentiment] labels it: label and emoji follow the sign
    of the score. *)
Definition row_consistent (r : row) : Prop :=
  if Qgt_bool (sentiment_score r) 0
  then sentiment r = Positive /\ sentiment_emoji r = emoji_smile
  else sentiment r = Negative /\ sentiment_emoji r = emoji_angry.

Definition labelled (r : row) : Prop :=
  sentiment r = Positive \/ sentiment r = Negative.

(** Rows by descending time. *)
Fixpoint descending (l : list row) : Prop :=
  match l with
  | [] => True
  | r :: l' => Forall (fun x => (time x <= time r)%Z) l' /\ descending l'
  end.

(** A session after one click on "Start Monitoring" and one polling cycle
    that fetched two tweets. *)
Definition session_after_poll : session_state :=
  match
    poll lexicon_scorer (fun k => Z.of_nat k + 20000000)%Z (lit "iPhone") 10 2
      (toggle_monitoring (lit "iPhone") (init_session 0))
  with
  | inr st => st
  | inl _ => init_session 0
  end.

(** * Properties *)

(** ** Strings *)

Section StripFacts.

Lemma lstrip_no_leading s : leading_space (lstrip s) = false.
Proof.
  induction s as [|c s IH]; simpl; [reflexivity|].
  destruct (isspace c) eqn:E; [exact IH | simpl; exact E].
Qed.

Lemma lstrip_fixed s : leading_space s = false -> lstrip s = s.
Proof.
  destruct s as [|c s]; simpl; [reflexivity|]. intros ->. reflexivity.
Qed.

Lemma lstrip_incl s : incl (lstrip s) s.
Proof.
  induction s as [|c s IH]; simpl; [apply incl_refl|].
  destruct (isspace c); [apply incl_tl, IH | apply incl_refl].
Qed.

Lemma lstrip_snoc s c :
  lstrip (s ++ [c]) =
  match lstrip s with
  | [] => if isspace c then [] else [c]
  | t => t ++ [c]
  end.
Proof.
  induction s as [|d s IH]; simpl; [reflexivity|].
  destruct (isspace d); [exact IH | reflexivity].
Qed.

(** Trailing white space goes the way [fold_right] drops it. *)
Lemma rstrip_fold s : rstrip s = Spec.trim_trailing s.
Proof.
  unfold rstrip, Spec.trim_trailing.
  induction s as [|c s IH]; simpl; [reflexivity|].
  rewrite lstrip_snoc, <- IH.
  destruct (lstrip (rev s)) as [|d t] eqn:E; simpl.
  - destruct (isspace c); reflexivity.
  - rewrite rev_app_distr. simpl.
    destruct (rev t ++ [d]) eqn:E2; [|reflexivity].
    destruct (rev t); discriminate.
Qed.

Lemma rstrip_keeps_head s :
  leading_space s = false -> leading_space (rstrip s) = false.
Proof.
  rewrite rstrip_fold. destruct s as [|c s]; simpl; [reflexivity|].
  intros E. unfold Spec.trim_trailing. simpl.
  destruct (fold_right _ _ s); rewrite ?E; simpl; exact E.
Qed.

Lemma strip_no_leading s : leading_space (strip s) = false.
Proof. apply rstrip_keeps_head, lstrip_no_leading. Qed.

Lemma strip_no_trailing s : trailing_space (strip s) = false.
Proof.
  unfold trailing_space, strip, rstrip.
  rewrite rev_involutive. apply lstrip_no_leading.
Qed.

Lemma strip_incl s : incl (strip s) s.
Proof.
  unfold strip, rstrip. intros c H.
  apply in_rev, lstrip_incl, in_rev, lstrip_incl in H. exact H.
Qed.

Lemma strip_fixed s :
  leading_space s = false -> trailing_space s = false -> strip s = s.
Proof.
  intros H1 H2. unfold strip, rstrip.
  rewrite (lstrip_fixed _ H1), (lstrip_fixed _ H2).
  apply rev_involutive.
Qed.

Lemma lower_char_class c :
  (is_upper c || is_lower c || isspace c) = true ->
  lower_or_space (lower_char c) = true.
Proof.
  unfold lower_or_space, lower_char, is_upper, is_lower, between.
  destruct (65 <=? c)%N eqn:A, (c <=? 90)%N eqn:B; simpl;
    try (rewrite ?orb_false_r; intros ->; reflexivity).
  intros _. apply N.leb_le in A, B.
  assert ((97 <=? c + 32)%N = true) as -> by (apply N.leb_le; lia).
  assert ((c + 32 <=? 122)%N = true) as -> by (apply N.leb_le; lia).
  reflexivity.
Qed.

Lemma lower_char_fixed c : lower_or_space c = true -> lower_char c = c.
Proof.
  unfold lower_char. intros H.
  destruct (is_upper c) eqn:U; [|reflexivity].
  exfalso. revert U H.
  unfold lower_or_space, is_upper, is_lower, isspace, between.
  rewrite !andb_true_iff, !orb_true_iff, !andb_true_iff.
  rewrite !N.leb_le, !N.eqb_eq. lia.
Qed.

Lemma lower_fixed s :
  Forall (fun c => lower_or_space c = true) s -> lower s = s.
Proof.
  unfold lower. induction 1 as [|c s H _ IH]; simpl; [reflexivity|].
  rewrite (lower_char_fixed _ H), IH. reflexivity.
Qed.

End StripFacts.

(** ** Matching and substitution *)

Section SubFacts.

Lemma sub_from_one p s :
  sub_from [Item p One] 0 s = filter (fun c => negb (p c)) s.
Proof.
  induction s as [|c s IH]; simpl; [reflexivity|].
  destruct (p c); simpl; rewrite IH; reflexivity.
Qed.

Lemma star_miss p k ok :
  (forall s, all_ok ok s -> k s = None) ->
  forall s, all_ok ok s -> star p k s = None.
Proof.
  intros Hk. induction 1 as [|c s Hc Hs IH]; simpl.
  - apply Hk. constructor.
  - rewrite IH, (Hk (c :: s)) by (constructor; assumption).
    destruct (p c); reflexivity.
Qed.

Lemma match_at_miss ok re :
  Exists (misses ok) re -> forall s, all_ok ok s -> match_at re s = None.
Proof.
  induction 1 as [it re [Hq Hrej] | it re _ IH]; intros s Hs.
  - destruct it as [p q]; simpl in *.
    destruct q; try congruence;
      (destruct Hs as [|c s Hc Hs]; simpl; [reflexivity|];
       rewrite (Hrej _ Hc); reflexivity).
  - destruct it as [p q]. destruct q; simpl.
    + destruct Hs as [|c s Hc Hs]; simpl; [reflexivity|].
      rewrite (IH _ Hs). destruct (p c); reflexivity.
    + rewrite (IH _ Hs).
      destruct Hs as [|c s Hc Hs]; simpl; [reflexivity|].
      rewrite (IH _ Hs). destruct (p c); reflexivity.
    + destruct Hs as [|c s Hc Hs]; simpl; [reflexivity|].
      rewrite (star_miss p _ ok IH _ Hs). destruct (p c); reflexivity.
Qed.

Lemma sub_from_fixed ok re s :
  Exists (misses ok) re -> all_ok ok s -> sub_from re 0 s = s.
Proof.
  intros Hre. induction 1 as [|c s Hc Hs IH]; simpl; [reflexivity|].
  rewrite (match_at_miss ok re Hre _ (Forall_cons _ Hc Hs)), IH. reflexivity.
Qed.

Lemma sub_empty_fixed ok re s :
  Exists (misses ok) re -> all_ok ok s -> sub_empty re s = s.
Proof. apply sub_from_fixed. Qed.

End SubFacts.

(** ** [preprocess_text]: shape of the result *)

Section Preprocess.

Lemma chr_misses a :
  lower_or_space (ord a) = false -> misses lower_or_space (chr a).
Proof.
  intros H. split; [discriminate|]. intros c Hc. simpl.
  destruct (N.eqb_spec (ord a) c) as [<-|]; congruence.
Qed.

Lemma mention_misses : Exists (misses lower_or_space) re_mention.
Proof. apply Exists_cons_hd, chr_misses. reflexivity. Qed.

Lemma hashtag_misses : Exists (misses lower_or_space) re_hashtag.
Proof. apply Exists_cons_hd, chr_misses. reflexivity. Qed.

Lemma url_misses : Exists (misses lower_or_space) re_url.
Proof.
  apply Exists_exists. exists (chr ":"). split.
  - simpl. tauto.
  - apply chr_misses. reflexivity.
Qed.

Lemma special_fixed s :
  all_ok lower_or_space s -> sub_empty re_special s = s.
Proof.
  unfold sub_empty, re_special. rewrite sub_from_one.
  induction 1 as [|c s Hc Hs IH]; simpl; [reflexivity|].
  assert (special_char c = false) as ->.
  { unfold special_char, lower_or_space in *.
    destruct (is_lower c), (isspace c), (is_upper c);
      simpl in *; congruence. }
  simpl. rewrite IH. reflexivity.
Qed.

Lemma special_leaves s :
  all_ok (fun c => is_upper c || is_lower c || isspace c)
         (sub_empty re_special s).
Proof.
  unfold sub_empty, re_special, all_ok. rewrite sub_from_one.
  apply Forall_forall. intros c Hc. apply filter_In in Hc.
  destruct Hc as [_ Hc]. unfold special_char in Hc.
  apply negb_true_iff, negb_false_iff in Hc. exact Hc.
Qed.

Lemma preprocess_class text : all_ok lower_or_space (preprocess_text text).
Proof.
  unfold preprocess_text, all_ok.
  eapply incl_Forall; [apply strip_incl|].
  unfold lower. apply Forall_map.
  eapply Forall_impl; [|apply special_leaves].
  intros c Hc. apply lower_char_class, Hc.
Qed.

End Preprocess.

(** C3, as the program behaves: the example input of the specification is
    cleaned to ["i love  check"]; the two spaces left of the removed URL and
    hashtag are trailing white space and [strip()] takes them away. *)
Theorem preprocess_example :
  preprocess_text (lit "I LOVE @brand! Check http://x.co #great")
  = lit "i love  check".
Proof. vm_compute. reflexivity. Qed.

(** C3, as the specification prints it: the result is not the string with
    the two trailing spaces. *)
Lemma preprocess_example_not_padded :
  preprocess_text (lit "I LOVE @brand! Check http://x.co #great")
  <> lit "i love  check  ".
Proof. vm_compute. discriminate. Qed.

(** C9: for every input, the result of [preprocess_text] holds only
    lower-case ASCII letters and white-space characters, and neither starts
    nor ends with white space. *)
Theorem preprocess_text_shape (text : str) :
  Forall (fun c => is_lower c = true \/ isspace c = true)
         (preprocess_text text)
  /\ leading_space (preprocess_text text) = false
  /\ trailing_space (preprocess_text text) = false.
Proof.
  split; [|split].
  - eapply Forall_impl; [|apply preprocess_class].
    intros c Hc. apply orb_true_iff, Hc.
  - apply strip_no_leading.
  - apply strip_no_trailing.
Qed.

(** C4: [preprocess_text] is idempotent. *)
Theorem preprocess_text_idempotent (x : str) :
  preprocess_text (preprocess_text x) = preprocess_text x.
Proof.
  pose proof (preprocess_class x) as Hc.
  set (y := preprocess_text x) in *.
  unfold preprocess_text at 1. cbv zeta.
  rewrite (sub_empty_fixed _ _ _ mention_misses Hc).
  rewrite (sub_empty_fixed _ _ _ hashtag_misses Hc).
  rewrite (sub_empty_fixed _ _ _ url_misses Hc).
  rewrite (special_fixed _ Hc), (lower_fixed _ Hc).
  apply strip_fixed; [apply strip_no_leading | apply strip_no_trailing].
Qed.

(** ** [preprocess_text] against the steps of the specification *)

Section Refinement.

Lemma star_run p k s :
  (forall t, k t = Some 0) -> star p k s = Some (Spec.run p s).
Proof.
  intros Hk. induction s as [|c s IH]; simpl; [apply Hk|].
  destruct (p c); [rewrite IH|simpl; apply Hk]; reflexivity.
Qed.

Lemma match_plus p s : match_at [Item p Plus] s = found (Spec.run p s).
Proof.
  destruct s as [|c s]; simpl; [reflexivity|].
  destruct (p c); [rewrite star_run|]; reflexivity.
Qed.

Lemma match_lits pre re s :
  match_at (lits pre ++ re) s =
  if Spec.starts_with pre s
  then option_map (Nat.add (length pre)) (match_at re (skipn (length pre) s))
  else None.
Proof.
  revert s. induction pre as [|a pre IH]; intros s; simpl.
  - destruct (match_at re s); reflexivity.
  - destruct s as [|c s]; simpl; [reflexivity|].
    destruct (a =? c)%N; simpl; [|reflexivity].
    rewrite IH. destruct (Spec.starts_with pre s); [|reflexivity].
    destruct (match_at re _); reflexivity.
Qed.

Lemma found_shift k n :
  option_map (Nat.add k) (found n) =
  found match n with 0 => 0 | S m => k + S m end.
Proof.
  destruct n; simpl; [reflexivity|].
  rewrite Nat.add_succ_r. reflexivity.
Qed.

Lemma match_token pre p s :
  match_at (lits pre ++ [Item p Plus]) s = found (Spec.token pre p s).
Proof.
  rewrite match_lits, match_plus. unfold Spec.token.
  destruct (Spec.starts_with pre s); [|reflexivity].
  apply found_shift.
Qed.

Lemma starts_with_app a b s :
  Spec.starts_with (a ++ b) s =
  Spec.starts_with a s && Spec.starts_with b (skipn (length a) s).
Proof.
  revert s. induction a as [|x a IH]; intros s; simpl; [reflexivity|].
  destruct s as [|c s]; [reflexivity|].
  rewrite IH, andb_assoc. reflexivity.
Qed.

Lemma token_app a b p s :
  Spec.token (a ++ b) p s =
  if Spec.starts_with a s
  then match Spec.token b p (skipn (length a) s) with
       | 0 => 0
       | S n => length a + S n
       end
  else 0.
Proof.
  unfold Spec.token. rewrite starts_with_app, length_app.
  destruct (Spec.starts_with a s); simpl; [|reflexivity].
  destruct (Spec.starts_with b _); [|reflexivity].
  rewrite Nat.add_comm, <- skipn_skipn.
  destruct (Spec.run p _); [reflexivity|].
  rewrite (Nat.add_succ_r (length b)). lia.
Qed.

(** The substitution drops exactly the tokens the pattern recognises. *)
Lemma sub_from_tokens re tok :
  (forall s, match_at re s = found (tok s)) ->
  forall s k, sub_from re k s = Spec.remove_tokens tok (skipn k s).
Proof.
  intros Hre. induction s as [|c s IH]; intros k.
  - destruct k; simpl; simp remove_tokens; reflexivity.
  - destruct k as [|k]; [|simpl; apply IH].
    cbn [sub_from skipn]. rewrite Hre. simp remove_tokens.
    destruct (tok (c :: s)) as [|n]; simpl.
    + rewrite IH. reflexivity.
    + apply IH.
Qed.

Lemma sub_empty_tokens re tok s :
  (forall s, match_at re s = found (tok s)) ->
  sub_empty re s = Spec.remove_tokens tok s.
Proof. intros H. apply (sub_from_tokens re tok H s 0). Qed.

Lemma match_mention s : match_at re_mention s = found (Spec.mention s).
Proof. apply (match_token (lit "@")). Qed.

Lemma match_hashtag s : match_at re_hashtag s = found (Spec.hashtag s).
Proof. apply (match_token (lit "#")). Qed.

End Refinement.

Lemma token_wrong_head x pre p c s :
  (x =? c)%N = false -> Spec.token (x :: pre) p (c :: s) = 0.
Proof. intros H. unfold Spec.token. simpl. rewrite H. reflexivity. Qed.

Lemma match_opt_then_token a x pre p s :
  (x =? a)%N = false ->
  match_at (Item (N.eqb a) Opt :: lits (x :: pre) ++ [Item p Plus]) s =
  found match Spec.token (x :: pre) p s with
        | 0 => Spec.token (a :: x :: pre) p s
        | n => n
        end.
Proof.
  intros Ha. cbn [match_at]. rewrite (match_token (x :: pre) p s).
  change (a :: x :: pre) with ([a] ++ x :: pre). rewrite token_app.
  destruct s as [|c s]; [reflexivity|].
  cbn [step Spec.starts_with length skipn]. rewrite match_token.
  destruct (N.eqb_spec a c) as [<-|Hac].
  - rewrite (token_wrong_head x pre p a s Ha). simpl.
    destruct (Spec.token (x :: pre) p s); reflexivity.
  - simpl. destruct (Spec.token (x :: pre) p (c :: s)); reflexivity.
Qed.

Lemma match_url s : match_at re_url s = found (Spec.url s).
Proof.
  change re_url with
    (lits (lit "http")
     ++ Item (N.eqb (ord "s")) Opt :: lits (lit "://") ++ [Item url_char Plus]).
  rewrite match_lits.
  rewrite (match_opt_then_token (ord "s") (ord ":") (lit "//")) by reflexivity.
  unfold Spec.url.
  change (lit "http://") with (lit "http" ++ lit "://").
  change (lit "https://") with (lit "http" ++ (ord "s" :: lit "://")).
  rewrite !token_app.
  destruct (Spec.starts_with (lit "http") s); [|reflexivity].
  rewrite found_shift.
  change (ord ":" :: lit "//") with (lit "://").
  change url_char with Spec.alnum_dot_slash.
  destruct (Spec.token (lit "://") _ _); [|reflexivity].
  destruct (Spec.token _ _ _); reflexivity.
Qed.

(** C7: [preprocess_text] is the six steps of the specification, in their
    order: mentions, hashtags and URLs are removed as tokens, then every
    character that is not an ASCII letter or white space, then the text is
    lower-cased and trimmed.  The URL token is no broader than written: in
    ["http://a.b?q=1"] it ends before the question mark. *)
Theorem preprocess_text_steps (text : str) :
  preprocess_text text = Spec.normalize text
  /\ match_at re_url (lit "http://a.b?q=1") = Some 10
  /\ preprocess_text (lit "see http://a.b?q=1") = lit "see q".
Proof.
  split; [|split; vm_compute; reflexivity].
  unfold preprocess_text, Spec.normalize. cbv zeta.
  rewrite (sub_empty_tokens _ _ _ match_mention).
  rewrite (sub_empty_tokens _ _ _ match_hashtag).
  rewrite (sub_empty_tokens _ _ _ match_url).
  unfold sub_empty, re_special. rewrite sub_from_one.
  unfold strip. rewrite rstrip_fold. reflexivity.
Qed.

(** ** The classifier *)

Section ClassifierFacts.

Lemma Qgt_bool_iff a b : Qgt_bool a b = true <-> (b < a)%Q.
Proof.
  unfold Qgt_bool. rewrite negb_true_iff, <- not_true_iff_false, Qle_bool_iff.
  split; [apply Qnot_le_lt | apply Qlt_not_le].
Qed.

Lemma Positive_not_Negative : Positive <> Negative.
Proof. vm_compute. discriminate. Qed.

Variable exn : Type.
Variable scorer : str -> exn + Q.

Lemma analyze_sentiment_inr text polarity :
  scorer (preprocess_text text) = inr polarity ->
  analyze_sentiment scorer text =
  inr (if Qgt_bool polarity 0
       then (polarity, Positive, emoji_smile)
       else (polarity, Negative, emoji_angry)).
Proof.
  intros H. unfold analyze_sentiment. cbv zeta. rewrite H.
  destruct (Qgt_bool polarity 0); reflexivity.
Qed.

Lemma analyze_sentiment_inl text e :
  scorer (preprocess_text text) = inl e ->
  analyze_sentiment scorer text = inl e.
Proof. intros H. unfold analyze_sentiment. cbv zeta. rewrite H. reflexivity. Qed.

End ClassifierFacts.

(** C1: whenever the scorer returns a polarity for the cleaned text, the
    classifier returns that polarity with a label that is Positive or
    Negative, and nothing else; the label is Positive exactly when the
    polarity is strictly greater than 0, so a polarity of 0 is Negative. *)
Theorem analyze_sentiment_label
    (exn : Type) (scorer : str -> exn + Q) (text : str) (polarity : Q) :
  scorer (preprocess_text text) = inr polarity ->
  exists label emoji,
    analyze_sentiment scorer text = inr (polarity, label, emoji)
    /\ (label = Positive \/ label = Negative)
    /\ (label = Positive <-> (0 < polarity)%Q)
    /\ ((polarity == 0)%Q -> label = Negative).
Proof.
  intros H. rewrite (analyze_sentiment_inr exn scorer text polarity H).
  destruct (Qgt_bool polarity 0) eqn:E.
  - exists Positive, emoji_smile. apply Qgt_bool_iff in E.
    repeat split; auto.
    intros Hz. rewrite Hz in E. exfalso. exact (Qlt_irrefl 0 E).
  - exists Negative, emoji_angry.
    assert (~ (0 < polarity)%Q) as Hn.
    { intros Hlt. apply Qgt_bool_iff in Hlt. congruence. }
    repeat split; auto.
    + intros Heq. symmetry in Heq. destruct (Positive_not_Negative Heq).
    + intros Hlt. destruct (Hn Hlt).
Qed.

Lemma analyze_sentiment_label_witness :
  lexicon_scorer (preprocess_text (lit "I LOVE it!!")) = inr (1 # 2)%Q
  /\ exists label emoji,
       analyze_sentiment lexicon_scorer (lit "I LOVE it!!")
       = inr ((1 # 2)%Q, label, emoji)
       /\ (label = Positive \/ label = Negative)
       /\ (label = Positive <-> (0 < 1 # 2)%Q)
       /\ ((1 # 2 == 0)%Q -> label = Negative).
Proof.
  split; [vm_compute; reflexivity|].
  apply (analyze_sentiment_label unit lexicon_scorer (lit "I LOVE it!!")).
  vm_compute. reflexivity.
Defined.

(** C5, as the specification words it: with an unavailable scorer the
    classifier does not fail with [ScoringUnavailable]; it fails with the
    exception the scorer raised. *)
Lemma analyze_sentiment_not_ScoringUnavailable :
  analyze_sentiment unavailable_scorer (lit "I love it")
  = inl MissingCorpusError
  /\ analyze_sentiment unavailable_scorer (lit "I love it")
     <> inl ScoringUnavailable.
Proof.
  split; [reflexivity|]. vm_compute. discriminate.
Qed.

(** C5, as the program behaves.  An exception of the scorer is not caught:
    the classifier fails with that very exception and produces no label.
    Whenever the scorer returns a polarity for the cleaned text, and so for
    every input when the scorer scores every text, the classifier does not
    raise: it returns that polarity with the label of its sign, Positive
    (and the smiling emoji) exactly when the polarity is above 0, Negative
    (and the angry emoji) otherwise.  An input that is empty, or empty once
    cleaned, is labelled Negative as soon as the scorer gives the empty
    text a polarity of 0 or below. *)
Theorem analyze_sentiment_failure_modes
    (exn : Type) (scorer : str -> exn + Q) :
  (forall text e,
      scorer (preprocess_text text) = inl e ->
      analyze_sentiment scorer text = inl e)
  /\ (forall text p,
      scorer (preprocess_text text) = inr p ->
      exists label emoji,
        analyze_sentiment scorer text = inr (p, label, emoji)
        /\ (label = Positive <-> (0 < p)%Q)
        /\ ((label = Positive /\ emoji = emoji_smile)
            \/ (label = Negative /\ emoji = emoji_angry)))
  /\ ((forall s, exists p, scorer s = inr p) ->
      forall text, exists p label emoji,
        scorer (preprocess_text text) = inr p
        /\ analyze_sentiment scorer text = inr (p, label, emoji)
        /\ (label = Positive <-> (0 < p)%Q)
        /\ ((label = Positive /\ emoji = emoji_smile)
            \/ (label = Negative /\ emoji = emoji_angry)))
  /\ (forall p, scorer [] = inr p -> (p <= 0)%Q ->
      preprocess_text [] = []
      /\ analyze_sentiment scorer [] = inr (p, Negative, emoji_angry)
      /\ forall text, preprocess_text text = [] ->
           analyze_sentiment scorer text = inr (p, Negative, emoji_angry)).
Proof.
  assert (forall text p,
            scorer (preprocess_text text) = inr p ->
            exists label emoji,
              analyze_sentiment scorer text = inr (p, label, emoji)
              /\ (label = Positive <-> (0 < p)%Q)
              /\ ((label = Positive /\ emoji = emoji_smile)
                  \/ (label = Negative /\ emoji = emoji_angry))) as Hret.
  { intros text p Hp.
    rewrite (analyze_sentiment_inr exn scorer text p Hp).
    destruct (Qgt_bool p 0) eqn:E.
    - exists Positive, emoji_smile. apply Qgt_bool_iff in E.
      split; [reflexivity|]. split; [tauto|]. left. split; reflexivity.
    - exists Negative, emoji_angry.
      split; [reflexivity|]. split; [|right; split; reflexivity].
      split.
      + intros H. symmetry in H. destruct (Positive_not_Negative H).
      + intros H. apply Qgt_bool_iff in H. congruence. }
  split; [|split; [|split]].
  - apply analyze_sentiment_inl.
  - exact Hret.
  - intros Hav text. destruct (Hav (preprocess_text text)) as [p Hp].
    destruct (Hret text p Hp) as [label [emoji H]].
    exists p, label, emoji. split; [exact Hp | exact H].
  - intros p Hp Hle.
    assert (forall text, preprocess_text text = [] ->
              analyze_sentiment scorer text = inr (p, Negative, emoji_angry))
      as Hall.
    { intros text Ht. rewrite <- Ht in Hp.
      rewrite (analyze_sentiment_inr exn scorer text p Hp).
      destruct (Qgt_bool p 0) eqn:E; [|reflexivity].
      apply Qgt_bool_iff in E. destruct (Qlt_not_le _ _ E Hle). }
    split; [reflexivity|]. split; [apply Hall; reflexivity | exact Hall].
Qed.

Lemma analyze_sentiment_failure_modes_witness :
  analyze_sentiment unavailable_scorer (lit "I love it")
  = inl MissingCorpusError
  /\ analyze_sentiment lexicon_scorer (lit "I LOVE it!!")
     = inr ((1 # 2)%Q, Positive, emoji_smile)
  /\ analyze_sentiment lexicon_scorer (lit "Terrible")
     = inr ((- (1))%Q, Negative, emoji_angry)
  /\ analyze_sentiment lexicon_scorer (lit "@user #tag http://x.y 123 !!!")
     = inr (0%Q, Negative, emoji_angry).
Proof.
  destruct (analyze_sentiment_failure_modes str unavailable_scorer)
    as [Hfail _].
  destruct (analyze_sentiment_failure_modes unit lexicon_scorer)
    as [_ [Hret [_ Hempty]]].
  split; [|split; [|split]].
  - apply Hfail. reflexivity.
  - destruct (Hret (lit "I LOVE it!!") (1 # 2)%Q eq_refl)
      as [label [emoji [Hres [[_ Hsign] Hpair]]]].
    rewrite Hres.
    assert (label = Positive) as Hl by (apply Hsign; reflexivity).
    destruct Hpair as [[_ He]|[Hn _]].
    + rewrite Hl, He. reflexivity.
    + rewrite Hl in Hn. destruct (Positive_not_Negative Hn).
  - destruct (Hret (lit "Terrible") (- (1))%Q eq_refl)
      as [label [emoji [Hres [[Hsign _] Hpair]]]].
    rewrite Hres.
    destruct Hpair as [[Hl _]|[Hl He]].
    + apply Hsign in Hl. discriminate Hl.
    + rewrite Hl, He. reflexivity.
  - apply (Hempty 0%Q); [reflexivity | discriminate | vm_compute; reflexivity].
Defined.

(** ** The record log *)

Section LogFacts.

Lemma str_eqb_refl s : str_eqb s s = true.
Proof. unfold str_eqb. destruct (list_eq_dec N.eq_dec s s); congruence. Qed.

Lemma str_eqb_eq a b : str_eqb a b = true <-> a = b.
Proof.
  unfold str_eqb. destruct (list_eq_dec N.eq_dec a b); split; congruence.
Qed.

Lemma count_label_app label d1 d2 :
  count_label label (concat d1 d2) = count_label label d1 + count_label label d2.
Proof. unfold count_label, concat. rewrite filter_app, length_app. reflexivity. Qed.

Lemma count_label_one label r :
  count_label label [r] = if str_eqb (sentiment r) label then 1 else 0.
Proof. unfold count_label. simpl. destruct (str_eqb _ _); reflexivity. Qed.

Lemma counts_app d r :
  counts (concat d [r]) =
  let '(p, n, t) := counts d in
  (p + (if str_eqb (sentiment r) Positive then 1 else 0),
   n + (if str_eqb (sentiment r) Negative then 1 else 0),
   t + 1).
Proof.
  unfold counts. rewrite !count_label_app, !count_label_one.
  unfold concat. rewrite length_app. reflexivity.
Qed.

(** A batch of the polling cycle is a sequence of single appends. *)
Lemma appended_batch k m d batch :
  appended k m d ->
  Forall (fun r => sentiment r = Positive \/ sentiment r = Negative) batch ->
  appended (k + count_label Positive batch) (m + count_label Negative batch)
           (concat d batch).
Proof.
  intros Hd Hb. revert k m d Hd.
  induction Hb as [|r batch Hr _ IH]; intros k m d Hd.
  - unfold concat. rewrite app_nil_r, !Nat.add_0_r. exact Hd.
  - replace (concat d (r :: batch)) with (concat (concat d [r]) batch)
      by (unfold concat; rewrite <- app_assoc; reflexivity).
    change (r :: batch) with (concat [r] batch).
    rewrite !count_label_app, !count_label_one, !Nat.add_assoc.
    apply IH. destruct Hr as [Hr|Hr]; rewrite Hr.
    + rewrite str_eqb_refl.
      replace (str_eqb Positive Negative) with false by reflexivity.
      rewrite Nat.add_0_r, Nat.add_1_r. apply appended_pos; assumption.
    + rewrite str_eqb_refl.
      replace (str_eqb Negative Positive) with false by reflexivity.
      rewrite Nat.add_0_r, Nat.add_1_r. apply appended_neg; assumption.
Qed.

Variable exn : Type.
Variable scorer : str -> exn + Q.

Lemma analyze_all_labels clock tweets : forall k rows,
  analyze_all scorer clock k tweets = inr rows ->
  Forall (fun r => sentiment r = Positive \/ sentiment r = Negative) rows.
Proof.
  induction tweets as [|t rest IH]; intros k rows; simpl.
  - intros [= <-]. constructor.
  - unfold analyze_sentiment. cbv zeta.
    destruct (scorer (preprocess_text t)) as [e|p]; [discriminate|].
    destruct (Qgt_bool p 0);
      (destruct (analyze_all scorer clock (S k) rest) as [e|rows'] eqn:E;
       [discriminate|]; intros [= <-]; constructor;
       [simpl; auto | apply (IH (S k)); exact E]).
Qed.

(** The polling cycle keeps the log a log of appended records. *)
Lemma poll_appended clock kw rate n st st' k m :
  appended k m (data st) ->
  poll scorer clock kw rate n st = inr st' ->
  exists k' m', appended (k + k') (m + m') (data st').
Proof.
  intros Hd. unfold poll.
  destruct (running st);
    [|intros [= <-]; exists 0, 0; rewrite !Nat.add_0_r; exact Hd].
  destruct (_ <=? _)%Z;
    [|intros [= <-]; exists 0, 0; rewrite !Nat.add_0_r; exact Hd].
  destruct (analyze_all scorer clock 1 _) as [e|rows] eqn:E; [discriminate|].
  intros [= <-]. simpl. eexists _, _.
  apply appended_batch; [exact Hd|].
  apply (analyze_all_labels _ _ _ _ E).
Qed.

End LogFacts.

(** C6: a log made by appending [k] records labelled Positive and [m]
    records labelled Negative, in any order, has counts [(k, m, k + m)]. *)
Theorem counts_appended (k m : nat) (d : list row) :
  appended k m d -> counts d = (k, m, k + m).
Proof.
  induction 1 as [|k m d r _ IH Hr|k m d r _ IH Hr].
  - reflexivity.
  - rewrite counts_app, IH, Hr. cbn. f_equal; [f_equal|]; lia.
  - rewrite counts_app, IH, Hr. cbn. f_equal; [f_equal|]; lia.
Qed.

Lemma counts_appended_witness :
  appended 2 1 log_2_1 /\ counts log_2_1 = (2, 1, 3).
Proof.
  assert (appended 2 1 log_2_1) as H.
  { unfold log_2_1.
    apply appended_pos; [|reflexivity].
    apply appended_neg; [|reflexivity].
    apply appended_pos; [|reflexivity].
    apply appended_nil. }
  split; [exact H | exact (counts_appended 2 1 log_2_1 H)].
Defined.

(** C8: after "Clear Data" the log is the empty log and its counts are
    [(0, 0, 0)], whatever the session held before (the dashboard then skips
    the metrics block, which it only shows for a non-empty log). *)
Theorem clear_data_counts (st : session_state) :
  data (clear_data st) = []
  /\ counts (data (clear_data st)) = (0, 0, 0)
  /\ metrics (data (clear_data st)) = None.
Proof. repeat split. Qed.

(** C10: "Clear Data" replaces the record log and nothing else: the running
    flag, the stored keyword and the time of the last update are the ones
    of the state before. *)
Theorem clear_data_frame (st : session_state) :
  running (clear_data st) = running st
  /\ keyword (clear_data st) = keyword st
  /\ last_update (clear_data st) = last_update st.
Proof. repeat split. Qed.

(** ** The trend line *)

Section TrendFacts.

Lemma skipn_nth (xs : list Q) lo :
  lo < length xs -> skipn lo xs = nth lo xs 0%Q :: skipn (S lo) xs.
Proof.
  revert lo. induction xs as [|x xs IH]; intros lo H; simpl in H; [lia|].
  destruct lo as [|lo]; [reflexivity|].
  simpl. apply IH. lia.
Qed.

Lemma slice_nth (xs : list Q) n : forall lo,
  lo + n <= length xs ->
  firstn n (skipn lo xs) = List.map (fun j => nth j xs 0%Q) (seq lo n).
Proof.
  induction n as [|n IH]; intros lo H; [reflexivity|].
  rewrite skipn_nth by lia. cbn [firstn seq List.map]. f_equal. apply IH. lia.
Qed.

Lemma window_at_nth window i (xs : list Q) :
  i < length xs ->
  window_at window i xs =
  List.map (fun j => nth j xs 0%Q) (seq (i + 1 - window) (i + 1 - (i + 1 - window))).
Proof. intros H. unfold window_at. apply slice_nth. lia. Qed.

Lemma rolling_mean_nth kernel window xs i :
  1 <= window -> i < length xs ->
  nth_error (rolling_mean kernel window 1 xs) i
  = Some (Some (kernel window (firstn (i + 1) xs))).
Proof.
  intros Hw Hi. unfold rolling_mean.
  rewrite nth_error_map, nth_error_seq.
  destruct (Nat.ltb_spec i (length xs)); [|lia]. simpl.
  rewrite window_at_nth, length_map, length_seq by assumption.
  destruct (i + 1 - (i + 1 - window)) eqn:E; [lia|reflexivity].
Qed.

End TrendFacts.

(** ** The program on sample inputs *)

Example preprocess_first_sample :
  preprocess_text (nth 0 (sample_texts (lit "iPhone")) [])
  = lit "i love my new iphone its absolutely amazing best purchase ever".
Proof. vm_compute. reflexivity. Qed.

Example preprocess_https :
  preprocess_text (lit "go https://t.co/Ab1 now") = lit "go  now".
Proof. vm_compute. reflexivity. Qed.

(** A scheme with nothing after it is no URL: only its punctuation goes. *)
Example preprocess_bare_scheme :
  preprocess_text (lit "http:// x @ y # z") = lit "http x  y  z".
Proof. vm_compute. reflexivity. Qed.

(** U+00A0 and U+2028 are white space for [\s] and for [strip()]. *)
Example preprocess_unicode_space :
  preprocess_text [160%N; 65%N; 8232%N; 66%N; 8232%N] = [97%N; 8232%N; 98%N].
Proof. vm_compute. reflexivity. Qed.

Example preprocess_all_removed :
  preprocess_text (lit "@user #tag http://x.y 123 !!!") = [].
Proof. vm_compute. reflexivity. Qed.

Example poll_two_tweets :
  option_map (fun st => (counts (data st), last_update st))
    match
      poll lexicon_scorer (fun k => Z.of_nat k + 20000000)%Z (lit "iPhone") 10 2
        (toggle_monitoring (lit "iPhone") (init_session 0))
    with
    | inr st => Some st
    | inl _ => None
    end
  = Some ((0, 2, 2), 20000003%Z).
Proof. vm_compute. reflexivity. Qed.

Example poll_broken_scorer :
  poll broken_scorer (fun k => Z.of_nat k + 20000000)%Z (lit "iPhone") 10 2
    (toggle_monitoring (lit "iPhone") (init_session 0))
  = inl tt.
Proof. vm_compute. reflexivity. Qed.

(** * Further properties *)

(** ** What [preprocess_text] keeps *)

Section Kept.

Lemma subseq_nil_l b : subseq [] b.
Proof. induction b; constructor; assumption. Qed.

Lemma subseq_refl a : subseq a a.
Proof. induction a; constructor; assumption. Qed.

Lemma subseq_trans a b c : subseq a b -> subseq b c -> subseq a c.
Proof.
  intros Hab Hbc. revert a Hab.
  induction Hbc as [|x b c _ IH|x b c _ IH]; intros a Hab.
  - exact Hab.
  - constructor. apply IH, Hab.
  - inversion Hab; subst.
    + constructor. apply IH. assumption.
    + apply subseq_keep. apply IH. assumption.
Qed.

Lemma subseq_length a b : subseq a b -> length a <= length b.
Proof. induction 1; simpl; lia. Qed.

Lemma subseq_map f a b :
  subseq a b -> subseq (List.map f a) (List.map f b).
Proof. induction 1; simpl; constructor; assumption. Qed.

Lemma sub_from_subseq re s : forall k, subseq (sub_from re k s) s.
Proof.
  induction s as [|c s IH]; intros k; simpl; [constructor|].
  destruct k as [|k]; [|constructor; apply IH].
  destruct (match_at re (c :: s)) as [[|n]|]; constructor; apply IH.
Qed.

Lemma lstrip_subseq s : subseq (lstrip s) s.
Proof.
  induction s as [|c s IH]; simpl; [constructor|].
  destruct (isspace c); [constructor; exact IH | apply subseq_refl].
Qed.

Lemma rstrip_subseq s : subseq (rstrip s) s.
Proof.
  rewrite rstrip_fold. unfold Spec.trim_trailing.
  induction s as [|c s IH]; simpl; [constructor|].
  destruct (fold_right _ _ s) as [|x t].
  - destruct (isspace c); [apply subseq_nil_l|].
    apply subseq_keep, subseq_nil_l.
  - apply subseq_keep, IH.
Qed.

Lemma strip_subseq s : subseq (strip s) s.
Proof.
  unfold strip. eapply subseq_trans; [apply rstrip_subseq|apply lstrip_subseq].
Qed.

Lemma chr_refuses ok a : ok (ord a) = false -> misses ok (chr a).
Proof.
  intros H. split; [discriminate|]. intros c Hc. simpl.
  destruct (N.eqb_spec (ord a) c) as [<-|]; congruence.
Qed.

(** Text made of ASCII letters and white space holds no mention, hashtag,
    URL or special character. *)
Lemma substitutions_fixed s :
  all_ok Spec.letter_or_space s ->
  sub_empty re_special
    (sub_empty re_url (sub_empty re_hashtag (sub_empty re_mention s))) = s.
Proof.
  intros H.
  rewrite (sub_empty_fixed Spec.letter_or_space re_mention s)
    by (trivial; apply Exists_cons_hd, chr_refuses; reflexivity).
  rewrite (sub_empty_fixed Spec.letter_or_space re_hashtag s)
    by (trivial; apply Exists_cons_hd, chr_refuses; reflexivity).
  rewrite (sub_empty_fixed Spec.letter_or_space re_url s).
  - unfold sub_empty, re_special. rewrite sub_from_one.
    induction H as [|c s Hc Hs IH]; simpl; [reflexivity|].
    unfold special_char at 1.
    unfold Spec.letter_or_space, is_letter in Hc. rewrite Hc. simpl.
    rewrite IH. reflexivity.
  - apply Exists_exists. exists (chr ":"). split; [simpl; tauto|].
    apply chr_refuses. reflexivity.
  - exact H.
Qed.

Lemma lower_or_space_letter c :
  lower_or_space c = true -> Spec.letter_or_space c = true.
Proof.
  unfold lower_or_space, Spec.letter_or_space, is_letter.
  destruct (is_upper c), (is_lower c), (isspace c); simpl; congruence.
Qed.

Lemma preprocess_text_fixed s :
  all_ok lower_or_space s ->
  leading_space s = false -> trailing_space s = false ->
  preprocess_text s = s.
Proof.
  intros H Hl Ht. unfold preprocess_text. cbv zeta.
  rewrite substitutions_fixed.
  - rewrite (lower_fixed s H). apply strip_fixed; assumption.
  - eapply Forall_impl; [|exact H]. apply lower_or_space_letter.
Qed.

Lemma preprocess_text_twice s :
  preprocess_text (preprocess_text s) = preprocess_text s.
Proof.
  apply preprocess_text_fixed;
    [apply preprocess_class|apply strip_no_leading|apply strip_no_trailing].
Qed.

End Kept.

(** X1: [preprocess_text] only deletes characters and folds case: its result
    is the lower-cased input with some characters deleted, so it is never
    longer than the input. *)
Theorem preprocess_text_only_deletes (text : str) :
  subseq (preprocess_text text) (lower text)
  /\ length (preprocess_text text) <= length text.
Proof.
  assert (subseq (preprocess_text text) (lower text)) as H.
  { unfold preprocess_text. cbv zeta.
    eapply subseq_trans; [apply strip_subseq|].
    unfold lower. apply subseq_map. unfold sub_empty.
    repeat (eapply subseq_trans; [apply sub_from_subseq|]).
    apply subseq_refl. }
  split; [exact H|].
  apply subseq_length in H. unfold lower in H. rewrite length_map in H.
  exact H.
Qed.

(** X2: the texts [preprocess_text] leaves unchanged are exactly those made
    of lower-case ASCII letters and white space that neither start nor end
    with white space. *)
Theorem preprocess_text_fixed_points (text : str) :
  preprocess_text text = text
  <-> (Forall (fun c => is_lower c = true \/ isspace c = true) text
       /\ leading_space text = false /\ trailing_space text = false).
Proof.
  split.
  - intros H. rewrite <- H. split; [|split].
    + eapply Forall_impl; [|apply preprocess_class].
      intros c Hc. apply orb_true_iff, Hc.
    + apply strip_no_leading.
    + apply strip_no_trailing.
  - intros [H [Hl Ht]]. apply preprocess_text_fixed; trivial.
    eapply Forall_impl; [|exact H].
    intros c Hc. apply orb_true_iff, Hc.
Qed.

(** X3: on a text made only of ASCII letters and white space none of the
    four substitutions removes anything: the text is lower-cased and
    stripped, nothing more. *)
Theorem preprocess_text_plain (text : str) :
  Forall (fun c => is_letter c = true \/ isspace c = true) text ->
  preprocess_text text = strip (lower text).
Proof.
  intros H. unfold preprocess_text. cbv zeta.
  rewrite substitutions_fixed; [reflexivity|].
  eapply Forall_impl; [|exact H].
  intros c Hc. apply orb_true_iff, Hc.
Qed.

Lemma preprocess_text_plain_witness :
  Forall (fun c => is_letter c = true \/ isspace c = true)
         (lit " Best Purchase ever ")
  /\ preprocess_text (lit " Best Purchase ever ")
     = strip (lower (lit " Best Purchase ever ")).
Proof.
  assert (Forall (fun c => is_letter c = true \/ isspace c = true)
                 (lit " Best Purchase ever ")) as H.
  { apply Forall_forall. intros c Hc. apply orb_true_iff.
    assert (forallb (fun c => is_letter c || isspace c)
                    (lit " Best Purchase ever ") = true) as Hb
      by (vm_compute; reflexivity).
    rewrite forallb_forall in Hb. apply Hb, Hc. }
  split; [exact H|]. exact (preprocess_text_plain _ H).
Defined.

(** X4: the classifier sees its input only through [preprocess_text]: two
    texts with the same cleaned form get the same result, and classifying an
    already cleaned text gives the result of the original. *)
Theorem analyze_sentiment_by_cleaned_text
    (exn : Type) (scorer : str -> exn + Q) (a b : str) :
  (preprocess_text a = preprocess_text b ->
   analyze_sentiment scorer a = analyze_sentiment scorer b)
  /\ analyze_sentiment scorer (preprocess_text a) = analyze_sentiment scorer a.
Proof.
  split.
  - intros H. unfold analyze_sentiment. cbv zeta. rewrite H. reflexivity.
  - unfold analyze_sentiment. cbv zeta. rewrite preprocess_text_twice.
    reflexivity.
Qed.

Lemma analyze_sentiment_by_cleaned_text_witness :
  preprocess_text (lit "I LOVE it!!") = preprocess_text (lit "@me i love it")
  /\ analyze_sentiment lexicon_scorer (lit "I LOVE it!!")
     = analyze_sentiment lexicon_scorer (lit "@me i love it").
Proof.
  assert (preprocess_text (lit "I LOVE it!!")
          = preprocess_text (lit "@me i love it")) as H
    by (vm_compute; reflexivity).
  split; [exact H|].
  exact (proj1 (analyze_sentiment_by_cleaned_text unit lexicon_scorer _ _) H).
Defined.

(** ** The tweet fetcher *)

Lemma length_get_fake_tweets kw n :
  length (get_fake_tweets kw n) = Nat.min n 15.
Proof. unfold get_fake_tweets. rewrite length_firstn. reflexivity. Qed.

(** X5: a fetch of [n] tweets returns [min(n, 15)] texts, the first ones of
    the fixed list, so a larger fetch extends a smaller one; every text
    holds the keyword verbatim. *)
Theorem get_fake_tweets_shape (kw : str) (n : nat) :
  length (get_fake_tweets kw n) = Nat.min n 15
  /\ Forall (fun t => exists a b, t = a ++ kw ++ b) (get_fake_tweets kw n)
  /\ forall m, n <= m -> get_fake_tweets kw n = firstn n (get_fake_tweets kw m).
Proof.
  split; [apply length_get_fake_tweets|]. unfold get_fake_tweets. split.
  - assert (Forall (fun t => exists a b, t = a ++ kw ++ b) (sample_texts kw))
      as H.
    { unfold sample_texts.
      repeat (constructor;
              [first [ exists []; eexists; reflexivity
                     | eexists; eexists; reflexivity ]|]).
      constructor. }
    apply Forall_forall. intros t Ht.
    rewrite Forall_forall in H. apply H.
    rewrite <- (firstn_skipn n (sample_texts kw)).
    apply in_or_app. left. exact Ht.
  - intros m Hm. rewrite firstn_firstn, Nat.min_l by exact Hm. reflexivity.
Qed.

Lemma get_fake_tweets_shape_witness :
  3 <= 5
  /\ get_fake_tweets (lit "iPhone") 3
     = firstn 3 (get_fake_tweets (lit "iPhone") 5).
Proof.
  assert (3 <= 5) as H by lia.
  split; [exact H|].
  exact (proj2 (proj2 (get_fake_tweets_shape (lit "iPhone") 3)) 5 H).
Defined.

(** ** Session initialisation *)

(** X6: the initialisation block only fills the keys that are missing: on a
    session that has its four keys it changes nothing, whatever the clock
    reads, and on a session with no key it gives an empty log, monitoring
    paused and the keyword iPhone. *)
Theorem initialize_keeps_session (now : Z) (st : session_state) :
  initialize now (keys_of st) = st
  /\ initialize now no_keys = init_session now
  /\ forall s now', initialize now' (keys_of (initialize now s)) = initialize now s.
Proof.
  split; [|split].
  - destruct st; reflexivity.
  - reflexivity.
  - intros s now'. destruct (initialize now s); reflexivity.
Qed.

(** ** The polling cycle *)

Section PollFacts.

Variable exn : Type.
Variable scorer : str -> exn + Q.

Lemma analyze_all_rows clock tweets : forall k rows,
  analyze_all scorer clock k tweets = inr rows ->
  List.map text rows = tweets
  /\ List.map time rows = List.map clock (seq k (length tweets))
  /\ Forall row_consistent rows
  /\ Forall (fun r => scorer (preprocess_text (text r))
                      = inr (sentiment_score r)) rows.
Proof.
  induction tweets as [|t rest IH]; intros k rows; simpl.
  - intros [= <-]. repeat split; constructor.
  - unfold analyze_sentiment. cbv zeta.
    destruct (scorer (preprocess_text t)) as [e|p] eqn:Ep; [discriminate|].
    destruct (analyze_all scorer clock (S k) rest) as [e|rows'] eqn:E.
    { destruct (Qgt_bool p 0); discriminate. }
    destruct (IH (S k) rows' E) as [H1 [H2 [H3 H4]]].
    destruct (Qgt_bool p 0) eqn:Eg; intros [= <-]; simpl;
      rewrite H1, H2; repeat split; trivial;
      constructor; trivial; unfold row_consistent; simpl; rewrite Eg; auto.
Qed.

Lemma analyze_all_total clock tweets : forall k,
  (forall t, In t tweets -> exists p, scorer (preprocess_text t) = inr p) ->
  exists rows, analyze_all scorer clock k tweets = inr rows.
Proof.
  induction tweets as [|t rest IH]; intros k H; simpl; [eauto|].
  destruct (H t (or_introl eq_refl)) as [p Hp].
  rewrite (analyze_sentiment_inr exn scorer t p Hp).
  destruct (IH (S k) (fun u Hu => H u (or_intror Hu))) as [rows Hr].
  rewrite Hr. destruct (Qgt_bool p 0); eauto.
Qed.

Lemma analyze_all_raises clock tweets : forall k,
  (exists e, analyze_all scorer clock k tweets = inl e)
  <-> (exists t e, In t tweets /\ scorer (preprocess_text t) = inl e).
Proof.
  induction tweets as [|t rest IH]; intros k; simpl.
  - split; [intros [e H]; discriminate | intros [t [e [[] _]]]].
  - destruct (scorer (preprocess_text t)) as [e|p] eqn:Ep.
    + rewrite (analyze_sentiment_inl exn scorer t e Ep).
      split; eauto 6.
    + rewrite (analyze_sentiment_inr exn scorer t p Ep).
      specialize (IH (S k)).
      destruct (analyze_all scorer clock (S k) rest) as [e|rows].
      * split; [|destruct (Qgt_bool p 0); eauto].
        intros _. destruct (proj1 IH) as [u [e' [Hu He]]]; eauto 6.
      * split.
        { intros [e He]. destruct (Qgt_bool p 0); discriminate. }
        intros [u [e [[<-|Hu] He]]]; [congruence|].
        destruct (proj2 IH) as [e' He']; [eauto|discriminate].
Qed.

Lemma labelled_of_consistent r : row_consistent r -> labelled r.
Proof.
  unfold row_consistent, labelled.
  destruct (Qgt_bool _ _); intros [H _]; auto.
Qed.

Lemma counts_labelled d :
  Forall labelled d ->
  count_label Positive d + count_label Negative d = length d.
Proof.
  unfold count_label.
  induction 1 as [|r d Hr _ IH]; simpl; [reflexivity|].
  destruct Hr as [Hr|Hr]; rewrite Hr, str_eqb_refl.
  - replace (str_eqb Positive Negative) with false by reflexivity.
    simpl. lia.
  - replace (str_eqb Negative Positive) with false by reflexivity.
    simpl. lia.
Qed.

Lemma run_consistent ev st st' :
  run scorer ev st = inr st' ->
  Forall row_consistent (data st) -> Forall row_consistent (data st').
Proof.
  destruct ev as [kw| |clock kw rate n]; simpl.
  - intros [= <-]. trivial.
  - intros [= <-] _. constructor.
  - unfold poll. destruct (running st); [|intros [= <-]; trivial].
    destruct (_ <=? _)%Z; [|intros [= <-]; trivial].
    destruct (analyze_all scorer clock 1 _) as [e|rows] eqn:E; [discriminate|].
    intros [= <-] H. simpl. unfold concat. apply Forall_app. split; [exact H|].
    apply (analyze_all_rows _ _ _ _ E).
Qed.

Lemma reachable_consistent st :
  reachable scorer st -> Forall row_consistent (data st).
Proof.
  induction 1 as [now|ev st st' _ IH Hrun]; [constructor|].
  exact (run_consistent ev st st' Hrun IH).
Qed.

End PollFacts.

Lemma session_after_poll_reachable : reachable lexicon_scorer session_after_poll.
Proof.
  apply (reachable_run unit lexicon_scorer
           (Poll (fun k => Z.of_nat k + 20000000)%Z (lit "iPhone") 10 2)
           (toggle_monitoring (lit "iPhone") (init_session 0))).
  - apply (reachable_run unit lexicon_scorer (Toggle (lit "iPhone"))
             (init_session 0)); [apply reachable_init | reflexivity].
  - vm_compute. reflexivity.
Defined.

(** X7: while monitoring is paused, or less than [refresh_rate] seconds
    after the last update, the main block leaves the session as it is and
    does not call the scorer: it succeeds even with a scorer that cannot
    score. *)
Theorem poll_idle
    (exn : Type) (scorer : str -> exn + Q) (clock : nat -> Z) (kw : str)
    (rate : Z) (n : nat) (st : session_state) :
  running st = false \/ (clock 0%nat - last_update st < rate * 1000000)%Z ->
  poll scorer clock kw rate n st = inr st.
Proof.
  intros H. unfold poll. destruct (running st); [|reflexivity].
  destruct H as [H|H]; [discriminate|].
  destruct (Z.leb_spec (rate * 1000000) (clock 0%nat - last_update st));
    [lia|reflexivity].
Qed.

Lemma poll_idle_witness :
  running (init_session 0) = false
  /\ poll broken_scorer (fun _ => 99000000%Z) (lit "iPhone") 10 3
          (init_session 0)
     = inr (init_session 0).
Proof.
  split; [reflexivity|].
  apply (poll_idle unit broken_scorer). left. reflexivity.
Defined.

(** X8: when monitoring is on, the interval has elapsed and the scorer
    scores every fetched tweet, the main block appends one row per fetched
    tweet after the rows already there: the rows carry the tweets in order,
    the successive readings of the clock, the scorer's polarity of the
    cleaned text and the label and emoji of its sign; [last_update] becomes
    the next reading and the flag and the stored keyword stay. *)
Theorem poll_appends
    (exn : Type) (scorer : str -> exn + Q) (clock : nat -> Z) (kw : str)
    (rate : Z) (n : nat) (st : session_state) :
  running st = true ->
  (rate * 1000000 <= clock 0%nat - last_update st)%Z ->
  (forall t, In t (get_fake_tweets kw n) ->
             exists p, scorer (preprocess_text t) = inr p) ->
  exists rows,
    poll scorer clock kw rate n st
    = inr {| data := data st ++ rows;
             last_update := clock (S (Nat.min n 15));
             running := running st; keyword := keyword st |}
    /\ List.map text rows = get_fake_tweets kw n
    /\ List.map time rows = List.map clock (seq 1 (Nat.min n 15))
    /\ Forall row_consistent rows
    /\ Forall (fun r => scorer (preprocess_text (text r))
                        = inr (sentiment_score r)) rows.
Proof.
  intros Hrun Hdue Hsc. unfold poll. rewrite Hrun.
  destruct (Z.leb_spec (rate * 1000000) (clock 0%nat - last_update st)); [|lia].
  destruct (analyze_all_total exn scorer clock (get_fake_tweets kw n) 1 Hsc)
    as [rows Hrows].
  rewrite Hrows. exists rows.
  destruct (analyze_all_rows exn scorer clock _ 1 rows Hrows)
    as [H1 [H2 [H3 H4]]].
  pose proof (length_get_fake_tweets kw n) as Hlen.
  rewrite Hlen in H2. rewrite Hlen. unfold concat. auto.
Qed.

Lemma poll_appends_witness :
  running (toggle_monitoring (lit "iPhone") (init_session 0)) = true
  /\ (10 * 1000000 <= 20000000 - 0)%Z
  /\ exists rows,
       poll lexicon_scorer (fun k => Z.of_nat k + 20000000)%Z (lit "iPhone")
            10 2 (toggle_monitoring (lit "iPhone") (init_session 0))
       = inr {| data := rows; last_update := 20000003%Z;
                running := true; keyword := lit "iPhone" |}
       /\ List.map text rows = get_fake_tweets (lit "iPhone") 2.
Proof.
  split; [reflexivity|]. split; [lia|].
  destruct (poll_appends unit lexicon_scorer
              (fun k => Z.of_nat k + 20000000)%Z (lit "iPhone") 10 2
              (toggle_monitoring (lit "iPhone") (init_session 0)))
    as [rows [H1 [H2 _]]].
  - reflexivity.
  - vm_compute. discriminate.
  - intros t _. unfold lexicon_scorer.
    destruct (str_eqb _ _); [eexists; reflexivity|].
    destruct (str_eqb _ _); eexists; reflexivity.
  - exists rows. split; [exact H1 | exact H2].
Defined.

(** X9: when monitoring is on and the interval has elapsed, the main block
    fails exactly when the scorer raises on one of the fetched tweets; it
    then stores nothing. *)
Theorem poll_raises
    (exn : Type) (scorer : str -> exn + Q) (clock : nat -> Z) (kw : str)
    (rate : Z) (n : nat) (st : session_state) :
  running st = true ->
  (rate * 1000000 <= clock 0%nat - last_update st)%Z ->
  ((exists e, poll scorer clock kw rate n st = inl e)
   <-> (exists t e, In t (get_fake_tweets kw n)
                    /\ scorer (preprocess_text t) = inl e)).
Proof.
  intros Hrun Hdue. unfold poll. rewrite Hrun.
  destruct (Z.leb_spec (rate * 1000000) (clock 0%nat - last_update st)); [|lia].
  rewrite <- (analyze_all_raises exn scorer clock (get_fake_tweets kw n) 1).
  destruct (analyze_all scorer clock 1 _) as [e|rows].
  - split; eauto.
  - split; intros [e He]; discriminate.
Qed.

Lemma poll_raises_witness :
  running (toggle_monitoring (lit "iPhone") (init_session 0)) = true
  /\ (10 * 1000000 <= 20000000 - 0)%Z
  /\ exists e,
       poll broken_scorer (fun k => Z.of_nat k + 20000000)%Z (lit "iPhone")
            10 2 (toggle_monitoring (lit "iPhone") (init_session 0))
       = inl e.
Proof.
  split; [reflexivity|]. split; [lia|].
  apply (poll_raises unit broken_scorer
           (fun k => Z.of_nat k + 20000000)%Z (lit "iPhone") 10 2
           (toggle_monitoring (lit "iPhone") (init_session 0))).
  - reflexivity.
  - vm_compute. discriminate.
  - exists (nth 0 (get_fake_tweets (lit "iPhone") 2) []), tt.
    split; [left; reflexivity | reflexivity].
Defined.

(** X10: every run of the script leaves the session consistent in these
    ways: only "Clear Data" removes rows, every other run keeps the rows
    there and at most appends; only the monitoring button changes the flag
    and the stored keyword; only the main block changes [last_update]. *)
Theorem run_frames
    (exn : Type) (scorer : str -> exn + Q) (ev : event)
    (st st' : session_state) :
  run scorer ev st = inr st' ->
  (ev <> Clear -> exists rows, data st' = data st ++ rows)
  /\ ((forall kw, ev <> Toggle kw) ->
      running st' = running st /\ keyword st' = keyword st)
  /\ ((forall clock kw rate n, ev <> Poll clock kw rate n) ->
      last_update st' = last_update st).
Proof.
  destruct ev as [kw| |clock kw rate n]; simpl.
  - intros [= <-]. split; [|split].
    + intros _. exists []. simpl. rewrite app_nil_r. reflexivity.
    + intros H. destruct (H kw eq_refl).
    + reflexivity.
  - intros [= <-]. split; [|split].
    + intros H. destruct (H eq_refl).
    + split; reflexivity.
    + reflexivity.
  - intros Hp. split; [|split].
    + intros _. unfold poll in Hp.
      destruct (running st);
        [|injection Hp as <-; exists []; rewrite app_nil_r; reflexivity].
      destruct (_ <=? _)%Z;
        [|injection Hp as <-; exists []; rewrite app_nil_r; reflexivity].
      destruct (analyze_all scorer clock 1 _) as [e|rows]; [discriminate|].
      injection Hp as <-. exists rows. reflexivity.
    + intros _. unfold poll in Hp.
      destruct (running st) eqn:Er; [|injection Hp as <-; auto].
      destruct (_ <=? _)%Z; [|injection Hp as <-; auto].
      destruct (analyze_all scorer clock 1 _) as [e|rows]; [discriminate|].
      injection Hp as <-. simpl. auto.
    + intros H. destruct (H clock kw rate n eq_refl).
Qed.

Lemma run_frames_witness :
  run lexicon_scorer
      (Poll (fun k => Z.of_nat k + 20000000)%Z (lit "iPhone") 10 2)
      (toggle_monitoring (lit "iPhone") (init_session 0))
  = inr session_after_poll
  /\ running session_after_poll = true
  /\ keyword session_after_poll = lit "iPhone".
Proof.
  assert (run lexicon_scorer
            (Poll (fun k => Z.of_nat k + 20000000)%Z (lit "iPhone") 10 2)
            (toggle_monitoring (lit "iPhone") (init_session 0))
          = inr session_after_poll) as H by (vm_compute; reflexivity).
  split; [exact H|].
  destruct (run_frames unit lexicon_scorer _ _ _ H) as [_ [Hk _]].
  apply Hk. intros kw. discriminate.
Defined.

(** X11: in every session the script can reach, each row of the log is
    labelled by the sign of its own score: Positive with the smiling emoji
    when the score is above 0, Negative with the angry emoji otherwise. *)
Theorem reachable_rows_consistent
    (exn : Type) (scorer : str -> exn + Q) (st : session_state) :
  reachable scorer st -> Forall row_consistent (data st).
Proof. apply reachable_consistent. Qed.

Lemma reachable_rows_consistent_witness :
  reachable lexicon_scorer session_after_poll
  /\ Forall row_consistent (data session_after_poll).
Proof.
  split; [exact session_after_poll_reachable|].
  exact (reachable_rows_consistent unit lexicon_scorer session_after_poll
           session_after_poll_reachable).
Defined.

(** X12: in every session the script can reach, the Positive and Negative
    counts add up to the total, and whenever the metrics are computed the
    total is positive, so the two percentages divide by a non-zero number. *)
Theorem reachable_counts_add_up
    (exn : Type) (scorer : str -> exn + Q) (st : session_state) :
  reachable scorer st ->
  count_label Positive (data st) + count_label Negative (data st)
  = length (data st)
  /\ forall positive negative total,
       metrics (data st) = Some (positive, negative, total) ->
       positive + negative = total /\ 0 < total.
Proof.
  intros H. apply reachable_consistent in H.
  assert (count_label Positive (data st) + count_label Negative (data st)
          = length (data st)) as Hc.
  { apply counts_labelled. eapply Forall_impl; [|exact H].
    apply labelled_of_consistent. }
  split; [exact Hc|].
  intros p n t. unfold metrics, counts.
  destruct (data st) as [|r d] eqn:E; [discriminate|].
  intros [= <- <- <-]. split; [exact Hc | simpl; lia].
Qed.

Lemma reachable_counts_add_up_witness :
  reachable lexicon_scorer session_after_poll
  /\ count_label Positive (data session_after_poll)
     + count_label Negative (data session_after_poll)
     = length (data session_after_poll).
Proof.
  split; [exact session_after_poll_reachable|].
  exact (proj1 (reachable_counts_add_up unit lexicon_scorer session_after_poll
                  session_after_poll_reachable)).
Defined.

(** ** More on the trend line *)

Section TrendPrefix.


End TrendPrefix.

(** X13: the trend line has one value for every row of the log and none of
    them is missing (NaN), whatever the values pandas computes. *)
Theorem rolling_avg_defined (kernel : nat -> list Q -> Q) (d : list row) :
  length (rolling_avg kernel d) = length d
  /\ forall i, i < length d ->
       exists m, nth_error (rolling_avg kernel d) i = Some (Some m).
Proof.
  split.
  - unfold rolling_avg, rolling_mean.
    rewrite length_map, length_seq, length_map. reflexivity.
  - intros i Hi. eexists. unfold rolling_avg. apply rolling_mean_nth.
    + lia.
    + rewrite length_map. exact Hi.
Qed.

Lemma rolling_avg_defined_witness :
  0 < length log_2_1
  /\ forall kernel,
       exists m, nth_error (rolling_avg kernel log_2_1) 0 = Some (Some m).
Proof.
  assert (0 < length log_2_1) as H by (vm_compute; lia).
  split; [exact H|].
  intros kernel. exact (proj2 (rolling_avg_defined kernel log_2_1) 0 H).
Defined.



(** ** The live feed and the colours *)

Section FeedFacts.

Lemma insert_by_time_perm r l : Permutation (insert_by_time r l) (r :: l).
Proof.
  induction l as [|x l IH]; simpl; [apply Permutation_refl|].
  destruct (time x <=? time r)%Z; [apply Permutation_refl|].
  eapply Permutation_trans; [apply perm_skip, IH | apply perm_swap].
Qed.

Lemma sort_by_time_desc_perm d : Permutation (sort_by_time_desc d) d.
Proof.
  induction d as [|r d IH]; simpl; [constructor|].
  eapply Permutation_trans; [apply insert_by_time_perm|].
  apply perm_skip, IH.
Qed.

Lemma insert_by_time_descending r l :
  descending l -> descending (insert_by_time r l).
Proof.
  induction l as [|x l IH]; simpl; [auto|].
  intros [Hx Hl].
  destruct (Z.leb_spec (time x) (time r)) as [Hle|Hgt]; simpl.
  - repeat split; trivial. constructor; [exact Hle|].
    eapply Forall_impl; [|exact Hx]. simpl. intros y Hy. lia.
  - split; [|apply IH, Hl].
    eapply Permutation_Forall;
      [apply Permutation_sym, insert_by_time_perm|].
    constructor; [lia|exact Hx].
Qed.

Lemma sort_by_time_desc_descending d : descending (sort_by_time_desc d).
Proof.
  induction d as [|r d IH]; simpl; [exact I|].
  apply insert_by_time_descending, IH.
Qed.

Lemma length_tail n d : length (tail n d) = Nat.min n (length d).
Proof. unfold tail. rewrite length_skipn. lia. Qed.

End FeedFacts.

(** X16: the live feed shows the last ten rows of the log, all of them when
    the log has fewer, each once, newest first. *)
Theorem live_feed_rows (d : list row) :
  (exists older, d = older ++ tail 10 d)
  /\ Permutation (live_feed d) (tail 10 d)
  /\ length (live_feed d) = Nat.min 10 (length d)
  /\ descending (live_feed d).
Proof.
  split; [|split; [|split]].
  - exists (firstn (length d - 10) d). unfold tail.
    symmetry. apply firstn_skipn.
  - apply sort_by_time_desc_perm.
  - unfold live_feed.
    rewrite (Permutation_length (sort_by_time_desc_perm (tail 10 d))).
    apply length_tail.
  - apply sort_by_time_desc_descending.
Qed.

(** X17: the feed and the raw-data table colour a row the same way: green
    when its label is Positive and red for anything else; for a row labelled
    by the classifier that is green exactly when the score is above 0. *)
Theorem colours_agree (r : row) :
  color_sentiment (sentiment r)
  = lit "color: " ++ fst (feed_colours r) ++ lit "; font-weight: bold"
  /\ (fst (feed_colours r) = lit "green" <-> sentiment r = Positive)
  /\ (fst (feed_colours r) <> lit "green" -> fst (feed_colours r) = lit "red")
  /\ (row_consistent r ->
      (fst (feed_colours r) = lit "green" <-> (0 < sentiment_score r)%Q)).
Proof.
  unfold color_sentiment, feed_colours, row_consistent.
  destruct (str_eqb (sentiment r) Positive) eqn:E; cbn [fst].
  - apply str_eqb_eq in E. split; [reflexivity|].
    split; [tauto|]. split; [congruence|].
    intros H. split; [|reflexivity]. intros _.
    destruct (Qgt_bool (sentiment_score r) 0) eqn:G.
    + apply Qgt_bool_iff, G.
    + destruct H as [H _]. rewrite H in E.
      symmetry in E. destruct (Positive_not_Negative E).
  - assert (sentiment r <> Positive) as Hn.
    { intros H. apply str_eqb_eq in H. congruence. }
    assert (lit "red" <> lit "green") as Hrg by (vm_compute; discriminate).
    split; [reflexivity|].
    split; [split; [intros H; destruct (Hrg H) | intros H; destruct (Hn H)]|].
    split; [reflexivity|].
    intros H. split; [intros H'; destruct (Hrg H')|].
    intros Hq. apply Qgt_bool_iff in Hq. rewrite Hq in H.
    destruct H as [H _]. destruct (Hn H).
Qed.

Lemma colours_agree_witness :
  row_consistent (row_neg 1)
  /\ (fst (feed_colours (row_neg 1)) = lit "green"
      <-> (0 < sentiment_score (row_neg 1))%Q)
  /\ fst (feed_colours (row_neg 1)) = lit "red".
Proof.
  assert (row_consistent (row_neg 1)) as H by (split; reflexivity).
  destruct (colours_agree (row_neg 1)) as [_ [_ [Hred Hsign]]].
  split; [exact H|]. split; [exact (Hsign H)|].
  apply Hred. vm_compute. discriminate.
Defined.

Section ChartFacts.




End ChartFacts.


